(** * Response helpers of package [response] (helper.go)

    A shallow embedding of the rendering helpers: the template catalog and
    its data overlay (package-level variables), the renderers that write on
    a request's response writer, and the start-up walk of the templates
    directory.

    Conventions.
    - Package-level variables ([templates], [templatesData]) and the data
      the helpers touch ([core.Production], caller-owned maps, response
      writers) are fields of a [World] that every function threads.
    - A Go map is a reference: caller-owned [DataMap]s live in [heap] and
      a [DataMap] value is [None] (the nil map) or the address of a map
      object, so that in-place mutation and aliasing are visible.
    - A response writer is an interface owned by the HTTP host; the model
      records, per request context, the calls it receives, in order.
    - [panic] is an outcome of its own: the effects performed before a
      panic stay in the world.
    - Packages the file imports (html/template, encoding/json,
      path/filepath) are collaborators: the first two are an [Engine]
      interface, [filepath.Walk] is written out over a directory tree.
    - [Redirect] and [Status] only forward to net/http and are left out. *)

From Stdlib Require Import ZArith.
From Stdlib.Strings Require Import Byte.
From stdpp Require Import base option list strings pretty gmap fin_maps.

Local Open Scope string_scope.
Local Open Scope Z_scope.
Local Open Scope list_scope.

(** ** Values, errors, panics *)

(** [*core.Context]: the address of a request context. *)
Definition Context := positive.

(** The address of a map object. *)
Definition loc := positive.

(** [interface{}] values as far as the helpers build or inspect them. *)
Inductive Value :=
| VNil
| VBool (b : bool)
| VInt (n : Z)
| VString (s : string)
| VContext (c : Context)
| VFunc (f : string).

Definition bytes := list byte.

(** The double quote character, for messages formatted with [%q]. *)
Definition dquote : string := String (Ascii.ascii_of_nat 34) EmptyString.

Definition templatesDir : string := "templates".

(** [error] values: the package's own sentinel, the two sentinels of
    path/filepath, and any other error, identified by its message. *)
Inductive error :=
| errNoTemplatesDir
| SkipDir
| SkipAll
| errorString (msg : string).

(** The [Error()] method. *)
Definition Error (e : error) : string :=
  match e with
  | errNoTemplatesDir =>
      "response: templates can't be used without a "
        +:+ dquote +:+ templatesDir +:+ dquote +:+ " directory"
  | SkipDir => "skip this directory"
  | SkipAll => "skip everything and stop the walk"
  | errorString msg => msg
  end.

(** The argument of [panic]. *)
Inductive PanicValue :=
| PanicError (e : error)
| PanicString (s : string).

(** [http.StatusOK]. *)
Definition StatusOK : Z := 200.

(** ** Response writers *)

(** A call received by an [http.ResponseWriter] (or made on it by the
    httputil collaborator). *)
Inductive Call :=
| HeaderSet (key value : string)
| SetDetectedContentType (p : bytes)
| WriteHeader (code : Z)
| Write (p : bytes).

(** The body bytes a sequence of calls has put on the stream. *)
Fixpoint body (cs : list Call) : bytes :=
  match cs with
  | [] => []
  | Write p :: cs' => p ++ body cs'
  | _ :: cs' => body cs'
  end.

(** ** The template and JSON engines

    The engines are functions of their arguments: parsing reads the file
    at the given path, executing a template reads the data it is given
    and writes to the writer it is given, and neither calls a response
    writer nor changes a caller's map. *)

Class Engine := {
  (** [*template.Template]: a tree of named, parsed templates. *)
  Catalog : Type;
  (** [template.New(name)]. *)
  template_New : string → Catalog;
  (** [t.Funcs(funcs)]. *)
  template_Funcs : Catalog → gmap string Value → Catalog;
  (** [t.ParseFiles(path)]: the tree afterwards and the error, if any. *)
  template_ParseFiles : Catalog → string → Catalog * option string;
  (** [t.ExecuteTemplate(wr, name, data)]: the bytes written to [wr] and
      the error, if any. *)
  template_ExecuteTemplate :
    Catalog → string → gmap string Value → bytes * option string;
  (** [json.Marshal(v)]. *)
  json_Marshal : Value → bytes + string;
}.

(** ** The world *)

(** Functions registered with [core.BeforeRun]. *)
Inductive Hook := walkHook.

Record World {E : Engine} := mkWorld {
  templates : option Catalog;
  templatesData : option (gmap string Value);
  Production : bool;
  heap : gmap loc (gmap string Value);
  writers : gmap Context (list Call);
  beforeRun : list Hook;
}.

Section Helpers.
Context {E : Engine}.

Definition set_templates (t : option Catalog) (w : World) : World :=
  mkWorld _ t (templatesData w) (Production w) (heap w) (writers w) (beforeRun w).
Definition set_templatesData (d : option (gmap string Value)) (w : World) : World :=
  mkWorld _ (templates w) d (Production w) (heap w) (writers w) (beforeRun w).
Definition set_heap (h : gmap loc (gmap string Value)) (w : World) : World :=
  mkWorld _ (templates w) (templatesData w) (Production w) h (writers w) (beforeRun w).
Definition set_writers (r : gmap Context (list Call)) (w : World) : World :=
  mkWorld _ (templates w) (templatesData w) (Production w) (heap w) r (beforeRun w).
Definition set_beforeRun (hs : list Hook) (w : World) : World :=
  mkWorld _ (templates w) (templatesData w) (Production w) (heap w) (writers w) hs.

(** ** The monad of helper calls *)

Inductive Result (A : Type) :=
| Returned (a : A)
| Panicked (p : PanicValue).
Global Arguments Returned {A} a.
Global Arguments Panicked {A} p.

Definition M (A : Type) : Type := World → Result A * World.

Definition ret {A} (a : A) : M A := λ w, (Returned a, w).
Definition bind {A B} (m : M A) (k : A → M B) : M B :=
  λ w, match m w with
       | (Returned a, w') => k a w'
       | (Panicked p, w') => (Panicked p, w')
       end.
Definition panic {A} (p : PanicValue) : M A := λ w, (Panicked p, w).
Definition get : M World := λ w, (Returned w, w).
Definition modify (f : World → World) : M unit := λ w, (Returned tt, f w).

End Helpers.

Notation "x <- c ;; k" := (bind c (λ x, k))
  (at level 100, c at next level, k at level 200, right associativity,
   format "'[v' x  <-  c  ;;  '/' k ']'").
Notation "c ;;; k" := (bind c (λ _, k))
  (at level 100, k at level 200, right associativity,
   format "'[v' c  ;;;  '/' k ']'").

(** ** Package [response] *)

Section Package.
Context {E : Engine}.

(** *** Primitive operations *)

(** The calls a context's response writer has received so far. *)
Definition trace (c : Context) (w : World) : list Call :=
  default [] (writers w !! c).

(** One more call on [c.ResponseWriter]. *)
Definition call (c : Context) (e : Call) : M unit :=
  modify (λ w, set_writers (<[c := trace c w ++ [e]]> (writers w)) w).

(** [DataMap]: nil, or a reference to a map object. *)
Definition DataMap := option loc.

(** [FuncMap]; its functions are opaque values. *)
Definition FuncMap := gmap string Value.

(** The contents of the map object at [l] (a reference always points to
    an object; a dangling one reads as empty). *)
Definition deref (l : loc) (w : World) : gmap string Value :=
  default ∅ (heap w !! l).

(** [make(map[string]interface{})]: a fresh, empty map object. *)
Definition make : M loc :=
  λ w, let l := fresh (dom (heap w)) in
       (Returned l, set_heap (<[l := ∅]> (heap w)) w).

(** [m[k] = v] on the map object at [l]. *)
Definition assign (l : loc) (k : string) (v : Value) (w : World) : World :=
  set_heap (<[l := <[k := v]> (deref l w)]> (heap w)) w.

(** [for k, v := range m { body }] for a body that cannot panic. The
    iteration order of [map_fold] stands for Go's unspecified one; see
    [overlay_loop_any_order] and [register_loop_any_order]. *)
Definition range {V} (m : gmap string V) (body : string → V → World → World)
  : M unit :=
  modify (λ w, map_fold body w m).

(** The same loop with its entries visited in the order of [es]. *)
Definition range_in_order {V} (es : list (string * V))
    (body : string → V → World → World) : M unit :=
  modify (λ w, foldl (λ w' kv, body kv.1 kv.2 w') w es).

(** [bytes.Buffer.WriteTo(c.ResponseWriter)]: one [Write] of the whole
    buffer, and none at all when the buffer is empty. *)
Definition Buffer_WriteTo (b : bytes) (c : Context) : M unit :=
  match b with
  | [] => ret tt
  | _ => call c (Write b)
  end.

(** *** Overlay registration *)

(** [TemplatesFuncs]. With a catalog the call is handed to the engine's
    [Funcs], which in html/template panics on a value that is not a
    function of an accepted form; [template_Funcs] stands for that call
    on a map of such functions, and nothing is proved of the others. *)
Definition TemplatesFuncs (funcs : FuncMap) : M unit :=
  w <- get;;
  match templates w with
  | None => panic (PanicError errNoTemplatesDir)
  | Some t => modify (set_templates (Some (template_Funcs t funcs)))
  end.

(** The body of the loop of [TemplatesData]: [templatesData[k] = v]. *)
Definition register_step (k : string) (v : Value) (w : World) : World :=
  set_templatesData (Some (<[k := v]> (default ∅ (templatesData w)))) w.

Definition TemplatesData (data : DataMap) : M unit :=
  w <- get;;
  match templates w with
  | None => panic (PanicError errNoTemplatesDir)
  | Some _ =>
      match data with
      | None => ret tt
      | Some l =>
          if decide (size (deref l w) = 0%nat) then ret tt
          else
            (match templatesData w with
             | None => modify (set_templatesData (Some ∅))
             | Some _ => ret tt
             end) ;;;
            range (deref l w) register_step
      end
  end.

(** *** Templated rendering *)

(** The body of the loop of [ExecuteTemplate]:
    [if _, ok := data[k]; !ok { data[k] = v }]. *)
Definition overlay_step (l : loc) (k : string) (v : Value) (w : World) : World :=
  match deref l w !! k with
  | Some _ => w
  | None => assign l k v w
  end.

(** [ExecuteTemplate(wr, c, name, data)]: the result is the bytes [wr]
    has received and the returned error. *)
Definition ExecuteTemplate (c : Context) (name : string) (data : DataMap)
  : M (bytes * option error) :=
  w <- get;;
  match templates w with
  | None => ret ([], Some errNoTemplatesDir)
  | Some t =>
      l <- match data with
           | None => make
           | Some l => ret l
           end;;
      modify (assign l "c" (VContext c)) ;;;
      modify (λ w, assign l "production" (VBool (Production w)) w) ;;;
      range (default ∅ (templatesData w)) (overlay_step l) ;;;
      w' <- get;;
      let '(out, err) := template_ExecuteTemplate t name (deref l w') in
      ret (out, errorString <$> err)
  end.

Definition TemplateStatus (c : Context) (code : Z) (name : string)
    (data : DataMap) : M unit :=
  w <- get;;
  match templates w with
  | None => panic (PanicError errNoTemplatesDir)
  | Some _ =>
      r <- ExecuteTemplate c name data;;
      match r with
      | (_, Some err) => panic (PanicError err)
      | (b, None) =>
          call c (HeaderSet "Content-Type" "text/html; charset=utf-8") ;;;
          call c (WriteHeader code) ;;;
          Buffer_WriteTo b c
      end
  end.

Definition Template (c : Context) (name : string) (data : DataMap) : M unit :=
  TemplateStatus c StatusOK name data.

(** *** Plain renderers *)

Definition StringStatus (c : Context) (code : Z) (s : string) : M unit :=
  call c (SetDetectedContentType (String.list_byte_of_string s)) ;;;
  call c (WriteHeader code) ;;;
  call c (Write (String.list_byte_of_string s)).

(** [String] (the plain name is the constructor of strings). *)
Definition String_ (c : Context) (s : string) : M unit :=
  StringStatus c StatusOK s.

Definition BytesStatus (c : Context) (code : Z) (b : bytes) : M unit :=
  call c (SetDetectedContentType b) ;;;
  call c (WriteHeader code) ;;;
  call c (Write b).

Definition Bytes (c : Context) (b : bytes) : M unit :=
  BytesStatus c StatusOK b.

Definition JSONStatus (c : Context) (code : Z) (v : Value) : M unit :=
  match json_Marshal v with
  | inr err => panic (PanicError (errorString err))
  | inl b =>
      call c (HeaderSet "Content-Type" "application/json") ;;;
      call c (WriteHeader code) ;;;
      call c (Write b)
  end.

Definition JSON (c : Context) (v : Value) : M unit :=
  JSONStatus c StatusOK v.

End Package.

(** ** Start-up: discovering the templates *)

(** What [os.Lstat] reports on an entry. *)
Record FileInfo := mkFileInfo { Name : string; IsDir : bool }.

(** The directory tree as the walk meets it: an entry whose [Lstat]
    fails, an entry that is not a directory, or a directory with the
    outcome of reading its (sorted) entries. Messages are those of the
    operating system's errors. *)
#[warnings="-register-all"]
Inductive Tree :=
| NoStat (name : string) (msg : string)
| Leaf (name : string)
| Node (name : string) (listing : string + list Tree).

Definition name_of (t : Tree) : string :=
  match t with
  | NoStat n _ | Leaf n | Node n _ => n
  end.

(** [filepath.Join(dir, name)] for a clean [dir] and a plain [name]. *)
Definition Join (dir name : string) : string := dir +:+ "/" +:+ name.

(** [filepath.Base] of a path built by [Join]: what follows its last
    separator. *)
Fixpoint Base_from (acc path : string) : string :=
  match path with
  | EmptyString => acc
  | String a rest =>
      if Ascii.eqb a (Ascii.ascii_of_nat 47) then Base_from EmptyString rest
      else Base_from (acc +:+ String a EmptyString) rest
  end.
Definition Base (path : string) : string := Base_from EmptyString path.

Section Startup.
Context {E : Engine}.

(** [filepath.WalkFunc]. *)
Definition WalkFunc : Type :=
  string → option FileInfo → option error → M (option error).

(** In the loop of [filepath.walk]: does the error [x] returned for the
    entry [e] end the walk? [SkipDir] is swallowed for a directory and for
    an entry whose [Lstat] failed, every other error is returned. *)
Definition stops (e : Tree) (x : error) : bool :=
  match e, x with
  | NoStat _ _, SkipDir => false
  | Node _ _, SkipDir => false
  | _, _ => true
  end.

(** [filepath.walk], together with the [Lstat] its caller performs on the
    entry: [walkFn] gets the [Lstat] error of an entry that has one, a
    non-directory is handed to [walkFn], and a directory is handed to
    [walkFn] with the outcome of reading it and then descended into,
    entry by entry, unless either failed. *)
Fixpoint walk (path : string) (t : Tree) (walkFn : WalkFunc) {struct t}
  : M (option error) :=
  match t with
  | NoStat _ msg => walkFn path None (Some (errorString msg))
  | Leaf n => walkFn path (Some (mkFileInfo n false)) None
  | Node n listing =>
      err1 <- walkFn path (Some (mkFileInfo n true))
                match listing with
                | inl msg => Some (errorString msg)
                | inr _ => None
                end;;
      match listing, err1 with
      | inr entries, None =>
          (fix loop (es : list Tree) : M (option error) :=
             match es with
             | [] => ret None
             | e :: es' =>
                 err <- walk (Join path (name_of e)) e walkFn;;
                 match err with
                 | Some x => if stops e x then ret (Some x) else loop es'
                 | None => loop es'
                 end
             end) entries
      | _, _ => ret err1
      end
  end.

(** [filepath.Walk(root, fn)] on the tree found at [root]. *)
Definition Walk (root : string) (fs : Tree) (fn : WalkFunc) : M (option error) :=
  err <- walk root fs fn;;
  match err with
  | Some SkipDir | Some SkipAll => ret None
  | _ => ret err
  end.

(** A method call through a nil pointer that reads a field. *)
Definition nilDereference : PanicValue :=
  PanicError (errorString
    "runtime error: invalid memory address or nil pointer dereference").

(** [templatesWalk]. [templates] is not nil when the walk runs (the hook
    is registered after the assignment); [ParseFiles] on a nil receiver
    parses into a tree of its own, which is dropped. *)
Definition templatesWalk : WalkFunc := λ path f err,
  match err with
  | Some e => ret (Some e)
  | None =>
      match f with
      | None => panic nilDereference
      | Some fi =>
          if IsDir fi then ret None
          else
            w <- get;;
            match templates w with
            | Some t =>
                let '(t', e) := template_ParseFiles t path in
                modify (set_templates (Some t')) ;;;
                ret (errorString <$> e)
            | None =>
                let '(_, e) := template_ParseFiles (template_New (Base path)) path in
                ret (errorString <$> e)
            end
      end
  end.

(** The function [init] hands to [core.BeforeRun]; [fs] is the tree found
    at [templatesDir] when the host runs it. *)
Definition walkTemplates (fs : Tree) : M unit :=
  err <- Walk templatesDir fs templatesWalk;;
  match err with
  | Some e => panic (PanicString ("response: " +:+ Error e))
  | None => ret tt
  end.

(** The built-in template functions. *)
Definition builtinFuncs : FuncMap :=
  {[ "html" := VFunc "templatesFuncHTML"; "nl2br" := VFunc "templatesFuncNL2BR" ]}.

(** [init]; [stat] is the error of [os.Stat(templatesDir)], if any. *)
Definition init (stat : option string) : M unit :=
  match stat with
  | Some _ => ret tt
  | None =>
      modify (set_templates (Some (template_New templatesDir))) ;;;
      modify (λ w, set_templates (flip template_Funcs builtinFuncs <$> templates w) w) ;;;
      modify (λ w, set_beforeRun (beforeRun w ++ [walkHook]) w)
  end.

(** The host runs a registered function. *)
Definition runHook (fs : Tree) (h : Hook) : M unit :=
  match h with
  | walkHook => walkTemplates fs
  end.

(** *** The walk, as the specification words it

    Every entry that is not a directory is parsed, directories are only
    descended into, and the first failure (of [Lstat], of reading a
    directory, of parsing) ends everything. *)

Inductive Step :=
| ParseStep (path : string)
| FailStep (msg : string).

(** The entries of a tree in the order of the walk. *)
Fixpoint steps (path : string) (t : Tree) : list Step :=
  match t with
  | NoStat _ msg => [FailStep msg]
  | Leaf _ => [ParseStep path]
  | Node _ (inl msg) => [FailStep msg]
  | Node _ (inr entries) =>
      (fix each (es : list Tree) : list Step :=
         match es with
         | [] => []
         | e :: es' => steps (Join path (name_of e)) e ++ each es'
         end) entries
  end.

(** The paths of the entries that are not directories, in the order of
    the walk, and the trees in which nothing fails to be read. *)
Fixpoint files (path : string) (t : Tree) : list string :=
  match t with
  | Leaf _ => [path]
  | Node _ (inr entries) =>
      (fix each (es : list Tree) : list string :=
         match es with
         | [] => []
         | e :: es' => files (Join path (name_of e)) e ++ each es'
         end) entries
  | _ => []
  end.

Fixpoint readable (t : Tree) : bool :=
  match t with
  | Leaf _ => true
  | Node _ (inr entries) =>
      (fix each (es : list Tree) : bool :=
         match es with
         | [] => true
         | e :: es' => readable e && each es'
         end) entries
  | _ => false
  end.

(** Parse in order until a step fails. *)
Fixpoint run_steps (ss : list Step) (t : Catalog) : Catalog * option string :=
  match ss with
  | [] => (t, None)
  | FailStep msg :: _ => (t, Some msg)
  | ParseStep path :: ss' =>
      match template_ParseFiles t path with
      | (t', Some msg) => (t', Some msg)
      | (t', None) => run_steps ss' t'
      end
  end.

(** Does each path parse, in turn, into the catalog that the paths
    before it have built? *)
Fixpoint parses_in_turn (ps : list string) (t : Catalog) : bool :=
  match ps with
  | [] => true
  | p :: ps' =>
      match template_ParseFiles t p with
      | (t', None) => parses_in_turn ps' t'
      | (_, Some _) => false
      end
  end.

End Startup.

(** ** Induction on directory trees *)

Section TreeInduction.
Variable P : Tree → Prop.
Hypothesis P_NoStat : ∀ n msg, P (NoStat n msg).
Hypothesis P_Leaf : ∀ n, P (Leaf n).
Hypothesis P_unreadable : ∀ n msg, P (Node n (inl msg)).
Hypothesis P_Node : ∀ n es, Forall P es → P (Node n (inr es)).

Fixpoint Tree_nested_ind (t : Tree) : P t :=
  match t with
  | NoStat n msg => P_NoStat n msg
  | Leaf n => P_Leaf n
  | Node n (inl msg) => P_unreadable n msg
  | Node n (inr es) =>
      P_Node n es
        ((fix all (es : list Tree) : Forall P es :=
            match es with
            | [] => @List.Forall_nil Tree P
            | e :: es' => @List.Forall_cons Tree P e es' (Tree_nested_ind e) (all es')
            end) es)
  end.
End TreeInduction.

(** ** A small engine to run the helpers on

    Templates are named by the base name of their file and greet the
    value under the key [name]; a file named [broken.tmpl] does not
    parse; a function cannot be greeted nor marshalled. *)

Module Toy.

Definition parse (t : list string) (path : string) : list string * option string :=
  if decide (Base path = "broken.tmpl")
  then (t, Some ("template: " +:+ path +:+ ": unexpected EOF"))
  else (t ++ [Base path], None).

Definition exec (t : list string) (name : string) (data : gmap string Value)
  : bytes * option string :=
  if decide (name ∈ t) then
    match data !! "name" with
    | Some (VString s) =>
        (String.list_byte_of_string ("Hello, " +:+ s +:+ "!"), None)
    | Some (VFunc f) =>
        (String.list_byte_of_string "Hello, ", Some ("error calling " +:+ f))
    | _ => (String.list_byte_of_string "Hello, !", None)
    end
  else ([], Some ("html/template: " +:+ name +:+ " is undefined")).

Definition marshal (v : Value) : bytes + string :=
  match v with
  | VNil => inl (String.list_byte_of_string "null")
  | VBool true => inl (String.list_byte_of_string "true")
  | VBool false => inl (String.list_byte_of_string "false")
  | VInt n => inl (String.list_byte_of_string (pretty n))
  | VString s => inl (String.list_byte_of_string (dquote +:+ s +:+ dquote))
  | VContext _ => inl (String.list_byte_of_string "{}")
  | VFunc _ => inr "json: unsupported type: func()"
  end.

Definition engine : Engine := {|
  Catalog := list string;
  template_New := λ _, [];
  template_Funcs := λ t _, t;
  template_ParseFiles := parse;
  template_ExecuteTemplate := exec;
  json_Marshal := marshal;
|}.

(** A request context and the maps callers own. *)
Definition ctx : Context := 7%positive.
Definition greeting : loc := 1%positive.
Definition custom : loc := 2%positive.

(** No templates directory at start-up. *)
Definition absent : @World engine :=
  @mkWorld engine None None false
    {[ greeting := {[ "name" := VString "World" ]} ]} ∅ [].

(** A populated catalog, an overlay, and two maps owned by callers. *)
Definition serving : @World engine :=
  @mkWorld engine
    (Some ["hello.tmpl"])
    (Some {[ "k" := VString "overlay"; "site" := VString "volatile";
             "production" := VString "overlay" ]})
    true
    {[ 1%positive := {[ "name" := VString "World"; "k" := VString "call" ]};
       2%positive := {[ "c" := VString "custom"; "production" := VString "custom" ]} ]}
    ∅ [].

(** A catalog and nothing else. *)
Definition fresh_start : @World engine :=
  @mkWorld engine (Some []) None false
    {[ 1%positive := {[ "x" := VInt 1 ]}; 2%positive := {[ "x" := VInt 2; "y" := VInt 3 ]};
       3%positive := ∅ ]}
    ∅ [walkHook].

(** templates/{a.tmpl, sub/{b.tmpl}} and a variant with a broken file. *)
Definition good_tree : Tree :=
  Node "templates" (inr [Leaf "a.tmpl"; Node "sub" (inr [Leaf "b.tmpl"])]).
Definition bad_tree : Tree :=
  Node "templates"
    (inr [Leaf "a.tmpl"; Node "sub" (inr [Leaf "broken.tmpl"]); Leaf "z.tmpl"]).

End Toy.

(** ** Closed forms used in the statements *)

Section ClosedForms.
Context {E : Engine}.

(** The keys [ExecuteTemplate] injects. *)
Definition reserved (k : string) : Prop := k = "c" ∨ k = "production".

(** The map object a call works on: the caller's, or a new one when the
    caller passed nil. *)
Definition target (data : DataMap) (w : World) : loc :=
  match data with
  | Some l => l
  | None => fresh (dom (heap w))
  end.

(** The entries the caller supplied. *)
Definition supplied (data : DataMap) (w : World) : gmap string Value :=
  match data with
  | Some l => deref l w
  | None => ∅
  end.

(** The entries the engine is run on, from the supplied entries [d]. *)
Definition effective_data (c : Context) (w : World) (d : gmap string Value)
  : gmap string Value :=
  <["production" := VBool (Production w)]> (<["c" := VContext c]> d)
    ∪ default ∅ (templatesData w).

(** The calls a successful [TemplateStatus] makes on the response writer. *)
Definition html_calls (code : Z) (out : bytes) : list Call :=
  HeaderSet "Content-Type" "text/html; charset=utf-8" :: WriteHeader code ::
  match out with
  | [] => []
  | _ => [Write out]
  end.

End ClosedForms.

(** * Properties *)

(** ** The world and the monad *)

Section WorldFacts.
Context {E : Engine}.

Lemma set_heap_same (w : World) : set_heap (heap w) w = w.
Proof. by destruct w. Qed.

Lemma set_templates_same (w : World) : set_templates (templates w) w = w.
Proof. by destruct w. Qed.

Lemma set_templatesData_same (w : World) : set_templatesData (templatesData w) w = w.
Proof. by destruct w. Qed.

Lemma set_templates_twice t1 t2 (w : World) :
  set_templates t2 (set_templates t1 w) = set_templates t2 w.
Proof. done. Qed.

Lemma trace_call (c c' : Context) (e : Call) (w w' : World) :
  call c e w = (Returned tt, w') →
  trace c' w' = if decide (c = c') then trace c w ++ [e] else trace c' w.
Proof.
  intros [= <-]. unfold trace; simpl.
  rewrite lookup_insert. by case_decide.
Qed.

Lemma body_app (cs1 cs2 : list Call) : body (cs1 ++ cs2) = body cs1 ++ body cs2.
Proof.
  induction cs1 as [|[] cs1 IH]; simpl; rewrite ?IH; try done.
  by rewrite (assoc_L (++)).
Qed.

End WorldFacts.

(** ** The two loops over maps *)

Section Loops.
Context {E : Engine}.

(** The loop of [ExecuteTemplate] completes the caller's map with the
    overlay entries whose keys it lacks. *)
Lemma overlay_loop (l : loc) (d o : gmap string Value) (w : World) :
  heap w !! l = Some d →
  map_fold (overlay_step l) w o = set_heap (<[l := d ∪ o]> (heap w)) w.
Proof.
  intros Hl.
  apply (map_fold_weak_ind (λ r m, r = set_heap (<[l := d ∪ m]> (heap w)) w)).
  - by rewrite (right_id_L ∅ (∪)), insert_id, set_heap_same.
  - intros k v m r Hk ->.
    unfold overlay_step, deref; simpl. rewrite lookup_insert_eq; simpl.
    rewrite lookup_union_l by done.
    destruct (d !! k) as [x|] eqn:Hd.
    + do 2 f_equal. apply map_eq; intros j.
      rewrite !lookup_union. destruct (decide (k = j)) as [<-|Hne].
      * by rewrite Hd, Hk, lookup_insert_eq.
      * by rewrite lookup_insert_ne.
    + unfold assign, deref, set_heap; simpl.
      rewrite lookup_insert_eq, insert_insert_eq; simpl.
      by rewrite insert_union_r.
Qed.

(** The loop of [TemplatesData] lays the registered entries over the
    overlay. *)
Lemma register_loop (m o : gmap string Value) (w : World) :
  templatesData w = Some o →
  map_fold register_step w m = set_templatesData (Some (m ∪ o)) w.
Proof.
  intros Ho.
  apply (map_fold_weak_ind (λ r m, r = set_templatesData (Some (m ∪ o)) w)).
  - by rewrite (left_id_L ∅ (∪)), <- Ho, set_templatesData_same.
  - intros k v m' r Hk ->.
    unfold register_step, set_templatesData; simpl.
    by rewrite insert_union_l.
Qed.

(** Whatever the order in which Go visits the entries, the two loops end
    in the same world. *)
Lemma overlay_entries (l : loc) (es : list (string * Value)) :
  ∀ (d : gmap string Value) (w : World),
    heap w !! l = Some d →
    foldl (λ w' kv, overlay_step l kv.1 kv.2 w') w es
    = set_heap (<[l := d ∪ list_to_map es]> (heap w)) w.
Proof.
  induction es as [|[k v] es IH]; intros d w Hl; simpl.
  - by rewrite (right_id_L ∅ (∪)), insert_id, set_heap_same.
  - unfold overlay_step at 2, deref. rewrite Hl; simpl.
    destruct (d !! k) as [x|] eqn:Hd.
    + rewrite (IH d w Hl). do 2 f_equal. apply map_eq; intros j.
      rewrite !lookup_union. destruct (decide (k = j)) as [<-|Hne].
      * rewrite Hd, lookup_insert_eq. by destruct (list_to_map es !! k).
      * by rewrite lookup_insert_ne.
    + rewrite (IH (<[k := v]> d) (assign l k v w)).
      2: { unfold assign, deref; simpl. by rewrite lookup_insert_eq, Hl. }
      unfold assign, set_heap; simpl. rewrite insert_insert_eq.
      by rewrite <- insert_union_l, insert_union_r.
Qed.

Lemma overlay_loop_any_order (l : loc) (d o : gmap string Value)
    (es : list (string * Value)) (w : World) :
  heap w !! l = Some d → es ≡ₚ map_to_list o →
  range_in_order es (overlay_step l) w = range o (overlay_step l) w.
Proof.
  intros Hl Hes. unfold range_in_order, range, modify.
  rewrite (overlay_entries l es d w Hl), (overlay_loop l d o w Hl).
  rewrite (list_to_map_proper es (map_to_list o)), list_to_map_to_list; [done| |done].
  rewrite Hes. apply NoDup_fst_map_to_list.
Qed.

Lemma register_entries (es : list (string * Value)) :
  NoDup es.*1 →
  ∀ (o : gmap string Value) (w : World),
    templatesData w = Some o →
    foldl (λ w' kv, register_step kv.1 kv.2 w') w es
    = set_templatesData (Some (list_to_map es ∪ o)) w.
Proof.
  induction es as [|[k v] es IH]; intros Hnd o w Ho; simpl.
  - by rewrite (left_id_L ∅ (∪)), <- Ho, set_templatesData_same.
  - apply NoDup_cons in Hnd as [Hk Hnd].
    rewrite (IH Hnd (<[k := v]> o)).
    2: { unfold register_step; simpl. by rewrite Ho. }
    unfold register_step, set_templatesData; simpl.
    rewrite <- insert_union_l. rewrite insert_union_r; [done|].
    by apply not_elem_of_list_to_map_1.
Qed.

Lemma register_loop_any_order (m o : gmap string Value)
    (es : list (string * Value)) (w : World) :
  templatesData w = Some o → es ≡ₚ map_to_list m →
  range_in_order es register_step w = range m register_step w.
Proof.
  intros Ho Hes. unfold range_in_order, range, modify.
  assert (NoDup es.*1) as Hnd by (rewrite Hes; apply NoDup_fst_map_to_list).
  rewrite (register_entries es Hnd o w Ho), (register_loop m o w Ho).
  by rewrite (list_to_map_proper es (map_to_list m)), list_to_map_to_list.
Qed.

End Loops.

(** ** Templated rendering *)

Section Rendering.
Context {E : Engine}.

(** What a call of [ExecuteTemplate] does when the catalog is present. *)
Lemma ExecuteTemplate_run c name data (w : World) t :
  templates w = Some t →
  ExecuteTemplate c name data w =
    (Returned
       ((template_ExecuteTemplate t name (effective_data c w (supplied data w))).1,
        errorString <$>
          (template_ExecuteTemplate t name (effective_data c w (supplied data w))).2),
     set_heap (<[target data w := effective_data c w (supplied data w)]> (heap w)) w).
Proof.
  intros Ht. unfold ExecuteTemplate, bind, get; simpl. rewrite Ht.
  destruct data as [l|]; unfold make, ret, modify, range; simpl.
  - rewrite (overlay_loop l (<["production" := VBool (Production w)]>
                               (<["c" := VContext c]> (deref l w)))).
    2: { unfold assign, deref; simpl. by rewrite !lookup_insert_eq. }
    unfold effective_data, set_heap, assign, deref; simpl.
    rewrite !lookup_insert_eq, !insert_insert_eq; simpl.
    by destruct (template_ExecuteTemplate _ _ _).
  - set (l := fresh (dom (heap w))).
    rewrite (overlay_loop l (<["production" := VBool (Production w)]>
                               (<["c" := VContext c]> ∅))).
    2: { unfold assign, deref; simpl. by rewrite !lookup_insert_eq. }
    unfold effective_data, set_heap, assign, deref; simpl.
    rewrite !lookup_insert_eq, !insert_insert_eq; simpl.
    by destruct (template_ExecuteTemplate _ _ _).
Qed.

End Rendering.

Section RenderingClaims.
Context {E : Engine}.

Lemma body_html_calls code out : body (html_calls code out) = out.
Proof. destruct out; simpl; by rewrite ?(right_id_L [] (++)). Qed.

(** What a call of [TemplateStatus] does when the catalog is present. *)
Lemma TemplateStatus_run c code name data (w : World) t :
  templates w = Some t →
  TemplateStatus c code name data w =
    let w1 := set_heap (<[target data w := effective_data c w (supplied data w)]>
                          (heap w)) w in
    match template_ExecuteTemplate t name (effective_data c w (supplied data w)) with
    | (_, Some msg) => (Panicked (PanicError (errorString msg)), w1)
    | (out, None) =>
        (Returned tt,
         set_writers (<[c := trace c w ++ html_calls code out]> (writers w)) w1)
    end.
Proof.
  intros Ht. unfold TemplateStatus, bind at 1, get. rewrite Ht.
  unfold bind at 1. rewrite (ExecuteTemplate_run _ _ _ _ t Ht).
  destruct (template_ExecuteTemplate _ _ _) as [out [msg|]]; simpl; [done|].
  unfold bind, Buffer_WriteTo, html_calls.
  destruct out as [|b out]; unfold call, ret, modify, trace, set_writers; simpl;
    rewrite ?lookup_insert_eq, ?insert_insert_eq; simpl;
    by rewrite <- ?app_assoc.
Qed.

Lemma ExecuteTemplate_absent c name data (w : World) :
  templates w = None →
  ExecuteTemplate c name data w = (Returned ([], Some errNoTemplatesDir), w).
Proof. intros Ht. unfold ExecuteTemplate, bind, get. by rewrite Ht. Qed.

Lemma TemplateStatus_absent c code name data (w : World) :
  templates w = None →
  TemplateStatus c code name data w = (Panicked (PanicError errNoTemplatesDir), w).
Proof. intros Ht. unfold TemplateStatus, bind, get. by rewrite Ht. Qed.

(** C3. When the catalog is absent, every templated render fails with
    [errNoTemplatesDir] and changes nothing: [ExecuteTemplate] returns the
    error having written no byte, [TemplateStatus] and [Template] panic
    with it, and the world (response writers included) is as before. *)
Theorem absent_catalog_fails c code name data (w : World) :
  templates w = None →
  ExecuteTemplate c name data w = (Returned ([], Some errNoTemplatesDir), w)
  ∧ TemplateStatus c code name data w = (Panicked (PanicError errNoTemplatesDir), w)
  ∧ Template c name data w = (Panicked (PanicError errNoTemplatesDir), w).
Proof.
  intros Ht. split_and!.
  - by apply ExecuteTemplate_absent.
  - by apply TemplateStatus_absent.
  - by apply TemplateStatus_absent.
Qed.

(** C4. [TemplateStatus] is all or nothing. With a catalog, the named
    template is executed on the effective data into a buffer, without any
    call on a response writer. If that execution fails (unknown name, a
    fault while executing), the call panics with the engine's error and
    every response writer is as it was. If it succeeds, the context's
    writer receives, in order, the HTML content type, the status code and
    the buffer in one piece, and no other writer receives anything. *)
Theorem TemplateStatus_atomic c code name data (w : World) t out err :
  templates w = Some t →
  template_ExecuteTemplate t name (effective_data c w (supplied data w))
    = (out, err) →
  let w1 := set_heap (<[target data w := effective_data c w (supplied data w)]>
                        (heap w)) w in
  ExecuteTemplate c name data w = (Returned (out, errorString <$> err), w1)
  ∧ writers w1 = writers w
  ∧ match err with
    | Some msg =>
        TemplateStatus c code name data w
        = (Panicked (PanicError (errorString msg)), w1)
    | None =>
        TemplateStatus c code name data w
        = (Returned tt,
           set_writers
             (<[c := trace c w
                       ++ [HeaderSet "Content-Type" "text/html; charset=utf-8";
                           WriteHeader code]
                       ++ match out with [] => [] | _ => [Write out] end]>
                (writers w)) w1)
        ∧ body (trace c (TemplateStatus c code name data w).2)
          = body (trace c w) ++ out
        ∧ ∀ c', c' ≠ c →
                trace c' (TemplateStatus c code name data w).2 = trace c' w
    end.
Proof.
  intros Ht Hrun w1.
  rewrite (ExecuteTemplate_run _ _ _ _ t Ht), (TemplateStatus_run _ _ _ _ _ t Ht).
  rewrite Hrun. split_and!; [done..|].
  destruct err as [msg|]; simpl; [done|].
  split_and!.
  - by destruct out.
  - unfold trace at 1; simpl. rewrite lookup_insert_eq; simpl.
    by rewrite body_app, body_html_calls.
  - intros c' Hc'. unfold trace; simpl. by rewrite lookup_insert_ne.
Qed.

End RenderingClaims.

(** ** The effective data of a render *)

Section EffectiveData.
Context {E : Engine}.

Lemma effective_c c (w : World) d : effective_data c w d !! "c" = Some (VContext c).
Proof.
  unfold effective_data. apply lookup_union_Some_l.
  by rewrite lookup_insert_ne, lookup_insert_eq.
Qed.

Lemma effective_production c (w : World) d :
  effective_data c w d !! "production" = Some (VBool (Production w)).
Proof.
  unfold effective_data. apply lookup_union_Some_l. by rewrite lookup_insert_eq.
Qed.

(** Away from the reserved keys, the caller's entry wins... *)
Lemma effective_supplied c (w : World) d k v :
  ¬ reserved k → d !! k = Some v → effective_data c w d !! k = Some v.
Proof.
  unfold reserved, effective_data. intros Hk Hd. apply lookup_union_Some_l.
  rewrite !lookup_insert_ne; [done|intros <-; tauto..].
Qed.

(** ... and the overlay fills the keys the caller left out. *)
Lemma effective_overlay c (w : World) d k :
  ¬ reserved k → d !! k = None →
  effective_data c w d !! k = default ∅ (templatesData w) !! k.
Proof.
  unfold reserved, effective_data. intros Hk Hd. apply lookup_union_r.
  rewrite !lookup_insert_ne; [done|intros <-; tauto..].
Qed.

Lemma effective_dom c (w : World) d :
  dom (effective_data c w d)
  = dom d ∪ {[ "c"; "production" ]} ∪ dom (default ∅ (templatesData w)).
Proof.
  unfold effective_data. rewrite dom_union_L, !dom_insert_L.
  apply set_eq; intros x. rewrite !elem_of_union, !elem_of_singleton. tauto.
Qed.

Lemma supplied_Some l d (w : World) :
  heap w !! l = Some d → supplied (Some l) w = d.
Proof. unfold supplied, deref. by intros ->. Qed.

(** The caller's map after [ExecuteTemplate], catalog present. *)
Lemma ExecuteTemplate_map c name l d t (w : World) :
  templates w = Some t → heap w !! l = Some d →
  deref l (ExecuteTemplate c name (Some l) w).2 = effective_data c w d.
Proof.
  intros Ht Hl. rewrite (ExecuteTemplate_run _ _ _ _ t Ht), (supplied_Some _ d) by done.
  unfold deref; simpl. by rewrite lookup_insert_eq.
Qed.

(** [TemplateStatus] leaves the maps as its call of [ExecuteTemplate]
    does, whether it returns or panics. *)
Lemma TemplateStatus_heap c code name data t (w : World) :
  templates w = Some t →
  heap (TemplateStatus c code name data w).2
  = heap (ExecuteTemplate c name data w).2.
Proof.
  intros Ht. rewrite (ExecuteTemplate_run _ _ _ _ t Ht), (TemplateStatus_run _ _ _ _ _ t Ht).
  by destruct (template_ExecuteTemplate _ _ _) as [out [msg|]].
Qed.

(** With a nil map the call works on a map object of its own: the
    objects that exist are left as they are. *)
Lemma ExecuteTemplate_nil_map c name t (w : World) :
  templates w = Some t →
  heap w !! fresh (dom (heap w)) = None
  ∧ heap (ExecuteTemplate c name None w).2
    = <[fresh (dom (heap w)) := effective_data c w ∅]> (heap w).
Proof.
  intros Ht. split.
  - apply not_elem_of_dom, is_fresh.
  - by rewrite (ExecuteTemplate_run _ _ _ _ t Ht).
Qed.

(** C1 (the code departs from it). A value the caller supplied under a
    reserved key does not survive: whatever the caller's map held under
    [c] or [production], after [ExecuteTemplate], [TemplateStatus] or
    [Template] it holds the injected value there, and this is the map the
    engine was run on. *)
Theorem reserved_keys_overwritten c code name l d t (w : World) k v :
  templates w = Some t → heap w !! l = Some d →
  reserved k → d !! k = Some v →
  let injected := if decide (k = "c") then VContext c else VBool (Production w) in
  ∃ eff,
    (ExecuteTemplate c name (Some l) w).1
      = Returned ((template_ExecuteTemplate t name eff).1,
                  errorString <$> (template_ExecuteTemplate t name eff).2)
    ∧ deref l (ExecuteTemplate c name (Some l) w).2 = eff
    ∧ deref l (TemplateStatus c code name (Some l) w).2 = eff
    ∧ deref l (Template c name (Some l) w).2 = eff
    ∧ eff !! k = Some injected
    ∧ (v ≠ injected → eff !! k ≠ Some v).
Proof.
  intros Ht Hl Hk Hd injected. exists (effective_data c w d).
  assert (effective_data c w d !! k = Some injected) as Hinj.
  { subst injected. destruct Hk as [->| ->]; simpl.
    - apply effective_c.
    - apply effective_production. }
  split_and!.
  - by rewrite (ExecuteTemplate_run _ _ _ _ t Ht), (supplied_Some _ d).
  - by apply (ExecuteTemplate_map _ _ _ _ t).
  - unfold deref. rewrite (TemplateStatus_heap _ _ _ _ t w Ht).
    by apply (ExecuteTemplate_map _ _ _ _ t).
  - unfold Template, deref. rewrite (TemplateStatus_heap _ _ _ _ t w Ht).
    by apply (ExecuteTemplate_map _ _ _ _ t).
  - done.
  - rewrite Hinj. congruence.
Qed.

(** C2 (the code departs from it at the reserved keys). For a key the
    caller supplied, the map the engine is run on holds the caller's value
    when the key is not reserved, whatever the overlay binds there, but
    the injected value when the key is [c] or [production]: there the
    template sees neither the call's value nor the overlay's. *)
Theorem supplied_key_after_merge c name l d t (w : World) k v :
  templates w = Some t → heap w !! l = Some d → d !! k = Some v →
  deref l (ExecuteTemplate c name (Some l) w).2 !! k
  = Some (if decide (k = "c") then VContext c
          else if decide (k = "production") then VBool (Production w)
          else v).
Proof.
  intros Ht Hl Hd. rewrite (ExecuteTemplate_map _ _ _ d t) by done.
  repeat case_decide; subst.
  - apply effective_c.
  - apply effective_production.
  - apply effective_supplied; [unfold reserved; tauto|done].
Qed.

(** C9, as the code has it. [ExecuteTemplate] works on the caller's map
    object, not on a copy: with a catalog and a map supplied, no map
    object is created and
    no other one changes, the engine is run on the caller's object, and
    afterwards that object holds the request context under [c], the
    production flag under [production], the overlay's value under every
    other key the caller had not supplied, and the caller's own value
    under every other key. [TemplateStatus] and [Template] leave the maps
    in the same state. *)
Theorem ExecuteTemplate_mutates_in_place c code name l d t (w : World) :
  templates w = Some t → heap w !! l = Some d →
  let w' := (ExecuteTemplate c name (Some l) w).2 in
  (∃ d',
     heap w' !! l = Some d'
     ∧ (ExecuteTemplate c name (Some l) w).1
         = Returned ((template_ExecuteTemplate t name d').1,
                     errorString <$> (template_ExecuteTemplate t name d').2)
     ∧ d' !! "c" = Some (VContext c)
     ∧ d' !! "production" = Some (VBool (Production w))
     ∧ (∀ k, ¬ reserved k → d !! k = None →
             d' !! k = default ∅ (templatesData w) !! k)
     ∧ (∀ k, ¬ reserved k → is_Some (d !! k) → d' !! k = d !! k)
     ∧ dom d' = dom d ∪ {[ "c"; "production" ]}
                  ∪ dom (default ∅ (templatesData w)))
  ∧ dom (heap w') = dom (heap w)
  ∧ (∀ l', l' ≠ l → heap w' !! l' = heap w !! l')
  ∧ heap (TemplateStatus c code name (Some l) w).2 = heap w'
  ∧ heap (Template c name (Some l) w).2 = heap w'.
Proof.
  intros Ht Hl w'. subst w'. split_and!.
  - exists (effective_data c w d). split_and!.
    + rewrite (ExecuteTemplate_run _ _ _ _ t Ht), (supplied_Some _ d) by done.
      simpl. by rewrite lookup_insert_eq.
    + by rewrite (ExecuteTemplate_run _ _ _ _ t Ht), (supplied_Some _ d).
    + apply effective_c.
    + apply effective_production.
    + intros k Hk Hd. by apply effective_overlay.
    + intros k Hk [v Hd]. rewrite Hd. by apply effective_supplied.
    + apply effective_dom.
  - rewrite (ExecuteTemplate_run _ _ _ _ t Ht); simpl.
    rewrite dom_insert_L. apply elem_of_dom_2 in Hl.
    apply set_eq; intros x. rewrite elem_of_union, elem_of_singleton.
    split; [intros [->|]; done|tauto].
  - intros l' Hl'. rewrite (ExecuteTemplate_run _ _ _ _ t Ht); simpl.
    by rewrite lookup_insert_ne.
  - by apply (TemplateStatus_heap _ _ _ _ t).
  - by apply (TemplateStatus_heap _ _ _ _ t).
Qed.

End EffectiveData.

(** ** Overlay registration *)

Section Registration.
Context {E : Engine}.

(** What [TemplatesData] does with a catalog and a map that has entries. *)
Lemma TemplatesData_run l m t (w : World) :
  templates w = Some t → heap w !! l = Some m → m ≠ ∅ →
  TemplatesData (Some l) w
  = (Returned tt, set_templatesData (Some (m ∪ default ∅ (templatesData w))) w).
Proof.
  intros Ht Hl Hm. unfold TemplatesData, bind at 1, get. rewrite Ht.
  unfold deref. rewrite Hl; simpl.
  case_decide as Hsize; [by apply map_size_empty_iff in Hsize|].
  unfold bind, range, modify.
  destruct (templatesData w) as [o|] eqn:Ho; simpl.
  - by rewrite (register_loop m o).
  - by rewrite (register_loop m ∅).
Qed.

(** C7, as the code has it: without a catalog [TemplatesData] panics with
    [errNoTemplatesDir] whatever map it is given, the nil and the empty
    map included; with a catalog, a nil or empty map changes nothing and
    the call returns. *)
Theorem TemplatesData_guards data (w : World) :
  (templates w = None →
   TemplatesData data w = (Panicked (PanicError errNoTemplatesDir), w))
  ∧ (is_Some (templates w) → supplied data w = ∅ →
     TemplatesData data w = (Returned tt, w)).
Proof.
  unfold TemplatesData, bind, get. split.
  - by intros ->.
  - intros [t ->] Hd. destruct data as [l|]; [|done].
    simpl in Hd. rewrite Hd. by rewrite decide_True by apply map_size_empty.
Qed.

(** C8. With a catalog, registering a map that has entries twice in a row
    leaves the world as registering it once does, and of two successive
    registrations the later one decides every key it binds while the keys
    it does not bind stay as the earlier one left them. *)
Theorem TemplatesData_idempotent_overwrite l m t (w : World) :
  templates w = Some t → heap w !! l = Some m → m ≠ ∅ →
  (TemplatesData (Some l) ;;; TemplatesData (Some l)) w = TemplatesData (Some l) w
  ∧ ∀ l2 m2, heap w !! l2 = Some m2 → m2 ≠ ∅ →
      ∃ w1 w2 o1 o2,
        TemplatesData (Some l) w = (Returned tt, w1)
        ∧ templatesData w1 = Some o1
        ∧ (TemplatesData (Some l) ;;; TemplatesData (Some l2)) w = (Returned tt, w2)
        ∧ templatesData w2 = Some o2
        ∧ (∀ k v, m2 !! k = Some v → o2 !! k = Some v)
        ∧ (∀ k, m2 !! k = None → o2 !! k = o1 !! k).
Proof.
  intros Ht Hl Hm. pose proof (TemplatesData_run l m t w Ht Hl Hm) as Hrun.
  split.
  - unfold bind at 1. rewrite Hrun.
    rewrite (TemplatesData_run l m t) by done. simpl.
    unfold set_templatesData; simpl.
    by rewrite (assoc_L (∪)), (idemp_L (∪)).
  - intros l2 m2 Hl2 Hm2. eexists _, _, _, _. split_and!.
    + exact Hrun.
    + done.
    + unfold bind at 1. rewrite Hrun. by rewrite (TemplatesData_run l2 m2 t).
    + done.
    + intros k v Hk. simpl. by apply lookup_union_Some_l.
    + intros k Hk. simpl. by apply lookup_union_r.
Qed.

End Registration.

(** ** Plain renderers *)

Section PlainRenderers.
Context {E : Engine}.

(** C6. [JSONStatus]: when marshalling fails the call panics with the
    world, every response writer included, as it was; when it succeeds
    the context's writer receives, in order, the JSON content type, the
    status code and exactly the marshalled bytes, and nothing else
    changes. [JSON] is the same with status 200. *)
Theorem JSONStatus_all_or_nothing c code v (w : World) :
  match json_Marshal v with
  | inr msg =>
      JSONStatus c code v w = (Panicked (PanicError (errorString msg)), w)
  | inl b =>
      JSONStatus c code v w
      = (Returned tt,
         set_writers
           (<[c := trace c w ++ [HeaderSet "Content-Type" "application/json";
                                 WriteHeader code; Write b]]> (writers w)) w)
      ∧ body (trace c (JSONStatus c code v w).2) = body (trace c w) ++ b
      ∧ ∀ c', c' ≠ c → trace c' (JSONStatus c code v w).2 = trace c' w
  end
  ∧ JSON c v w = JSONStatus c 200 v w.
Proof.
  split; [|done]. unfold JSONStatus.
  destruct (json_Marshal v) as [b|msg]; [|done].
  assert ((call c (HeaderSet "Content-Type" "application/json") ;;;
           call c (WriteHeader code) ;;; call c (Write b)) w
          = (Returned tt,
             set_writers
               (<[c := trace c w ++ [HeaderSet "Content-Type" "application/json";
                                     WriteHeader code; Write b]]> (writers w)) w))
    as ->.
  { unfold bind, call, modify, trace, set_writers; simpl.
    rewrite !lookup_insert_eq, !insert_insert_eq; simpl.
    by rewrite <- !app_assoc. }
  split_and!; [done|..].
  - unfold trace at 1; simpl. rewrite lookup_insert_eq; simpl.
    rewrite body_app; simpl. by rewrite (right_id_L [] (++)).
  - intros c' Hc'. unfold trace; simpl. by rewrite lookup_insert_ne.
Qed.

(** C10. Each renderer without a status is its counterpart with status
    200. *)
Theorem status_less_renderers c name data s b v :
  Template c name data = TemplateStatus c 200 name data
  ∧ String_ c s = StringStatus c 200 s
  ∧ Bytes c b = BytesStatus c 200 b
  ∧ JSON c v = JSONStatus c 200 v.
Proof. done. Qed.

End PlainRenderers.

(** ** The start-up walk *)

Section StartupWalk.
Context {E : Engine}.

Lemma run_steps_app ss1 ss2 t :
  run_steps (ss1 ++ ss2) t
  = match run_steps ss1 t with
    | (t', None) => run_steps ss2 t'
    | r => r
    end.
Proof.
  revert t. induction ss1 as [|[path|msg] ss1 IH]; intros t; simpl; [done| |done].
  destruct (template_ParseFiles t path) as [t' [msg|]]; [done|apply IH].
Qed.

(** Once a step has failed, the steps after it are not run. *)
Lemma run_steps_first_failure ss1 ss2 msg t t' :
  run_steps ss1 t = (t', None) →
  run_steps (ss1 ++ FailStep msg :: ss2) t = (t', Some msg).
Proof. intros Hrun. by rewrite run_steps_app, Hrun. Qed.

Lemma run_steps_failed_parse ss1 ss2 path msg t t' t'' :
  run_steps ss1 t = (t', None) →
  template_ParseFiles t' path = (t'', Some msg) →
  run_steps (ss1 ++ ParseStep path :: ss2) t = (t'', Some msg).
Proof. intros Hrun Hp. rewrite run_steps_app, Hrun. simpl. by rewrite Hp. Qed.

(** In a tree that can be read throughout, the steps are: parse every
    entry that is not a directory. *)
Lemma steps_readable fs : ∀ path,
  readable fs = true → steps path fs = ParseStep <$> files path fs.
Proof.
  induction fs as [n msg|n|n msg|n es IH] using Tree_nested_ind;
    intros path Hr; try done.
  cbn [steps files readable] in *.
  induction IH as [|e es He _ IHes]; [done|].
  apply andb_prop in Hr as [Hr1 Hr2].
  by rewrite fmap_app, (He _ Hr1), (IHes Hr2).
Qed.

(** [templatesWalk] on the three kinds of visit. *)
Lemma templatesWalk_error path f e (w : World) :
  templatesWalk path f (Some e) w = (Returned (Some e), w).
Proof. done. Qed.

Lemma templatesWalk_dir path n (w : World) :
  templatesWalk path (Some (mkFileInfo n true)) None w = (Returned None, w).
Proof. done. Qed.

Lemma templatesWalk_file path n t (w : World) :
  templates w = Some t →
  templatesWalk path (Some (mkFileInfo n false)) None w
  = (Returned (errorString <$> (template_ParseFiles t path).2),
     set_templates (Some (template_ParseFiles t path).1) w).
Proof.
  intros Ht. unfold templatesWalk, bind, get; simpl. rewrite Ht.
  by destruct (template_ParseFiles t path) as [t' e].
Qed.

(** The walk with [templatesWalk] runs the steps of the tree. *)
Lemma walk_templatesWalk fs : ∀ path t (w : World),
  templates w = Some t →
  walk path fs templatesWalk w
  = (Returned (errorString <$> (run_steps (steps path fs) t).2),
     set_templates (Some (run_steps (steps path fs) t).1) w).
Proof.
  induction fs as [n msg|n|n msg|n es IH] using Tree_nested_ind;
    intros path t w Ht.
  - cbn [walk steps run_steps]. rewrite templatesWalk_error. simpl.
    by rewrite <- Ht, set_templates_same.
  - cbn [walk steps run_steps]. rewrite (templatesWalk_file _ _ t) by done.
    by destruct (template_ParseFiles t path) as [t' [msg|]].
  - cbn [walk steps run_steps]. unfold bind. rewrite templatesWalk_error. simpl.
    by rewrite <- Ht, set_templates_same.
  - cbn [walk steps]. unfold bind at 1. rewrite templatesWalk_dir.
    revert t w Ht. induction IH as [|e es He _ IHes]; intros t w Ht.
    + simpl. by rewrite <- Ht, set_templates_same.
    + unfold bind at 1. rewrite (He _ t) by done.
      rewrite run_steps_app.
      destruct (run_steps (steps (Join path (name_of e)) e) t) as [t' [msg|]];
        simpl.
      * by destruct e.
      * by rewrite (IHes t').
Qed.

(** C5. The function run before serving walks the templates directory in
    order: an entry that is not a directory is parsed into the catalog, a
    directory is only descended into, and the first failure, be it of
    [Lstat], of reading a directory or of parsing, ends the walk at once
    (no later entry is parsed) and makes the function panic with the
    failure's message. *)
Theorem walkTemplates_parses_or_panics fs t (w : World) :
  templates w = Some t →
  walkTemplates fs w
  = match run_steps (steps templatesDir fs) t with
    | (t', None) => (Returned tt, set_templates (Some t') w)
    | (t', Some msg) =>
        (Panicked (PanicString ("response: " +:+ msg)), set_templates (Some t') w)
    end.
Proof.
  intros Ht. unfold walkTemplates, Walk, bind.
  rewrite (walk_templatesWalk _ _ t) by done.
  by destruct (run_steps (steps templatesDir fs) t) as [t' [msg|]].
Qed.

(** [init] with a templates directory: a catalog with the built-in
    functions, and the walk registered to run before serving. *)
Lemma init_present (w : World) :
  init None w
  = (Returned tt,
     set_beforeRun (beforeRun w ++ [walkHook])
       (set_templates
          (Some (template_Funcs (template_New templatesDir) builtinFuncs)) w)).
Proof. done. Qed.

(** [init] without one: nothing happens, the catalog stays nil. *)
Lemma init_absent msg (w : World) : init (Some msg) w = (Returned tt, w).
Proof. done. Qed.

End StartupWalk.

(** * Further properties of the helpers *)

(** ** Renders and the state they share *)

Section RenderFrame.
Context {E : Engine}.

(** Away from the reserved keys, the effective data are the caller's
    entries laid over the overlay. *)
Lemma effective_unreserved c (w : World) d k :
  ¬ reserved k →
  effective_data c w d !! k = (d ∪ default ∅ (templatesData w)) !! k.
Proof.
  unfold reserved, effective_data. intros Hk.
  rewrite !lookup_union, !lookup_insert_ne; [done|intros <-; tauto..].
Qed.

Lemma effective_idem c (w : World) d :
  effective_data c w (effective_data c w d) = effective_data c w d.
Proof.
  apply map_eq; intros k.
  destruct (decide (k = "c")) as [->|Hc]; [by rewrite !effective_c|].
  destruct (decide (k = "production")) as [->|Hp];
    [by rewrite !effective_production|].
  assert (¬ reserved k) as Hk by (unfold reserved; tauto).
  rewrite (effective_unreserved _ _ (effective_data c w d)) by done.
  rewrite lookup_union, (effective_unreserved _ _ d) by done.
  rewrite lookup_union.
  by destruct (d !! k), (default ∅ (templatesData w) !! k).
Qed.

Lemma deref_set_heap l x h (w : World) : deref l (set_heap (<[l := x]> h) w) = x.
Proof. unfold deref; simpl. by rewrite lookup_insert_eq. Qed.

(** X3. Of the package's variables and the callers' maps,
    [ExecuteTemplate] touches one map object only: whatever its
    arguments, the catalog, the overlay and the production flag are as
    before, and so is every map object other than the one it works on
    (the caller's, or its own when the caller passed nil). *)
Theorem ExecuteTemplate_frame c name data (w : World) :
  let w' := (ExecuteTemplate c name data w).2 in
  templates w' = templates w
  ∧ templatesData w' = templatesData w
  ∧ Production w' = Production w
  ∧ ∀ l, l ≠ target data w → heap w' !! l = heap w !! l.
Proof.
  destruct (templates w) as [t|] eqn:Ht.
  - rewrite (ExecuteTemplate_run _ _ _ _ t Ht); simpl.
    split_and!; try done. intros l Hl. by rewrite lookup_insert_ne.
  - by rewrite ExecuteTemplate_absent.
Qed.

(** X4. A templated render, whether it returns or panics, changes
    neither the catalog nor the overlay, leaves the maps as
    [ExecuteTemplate] does, and makes no call on the response writer of
    another request. *)
Theorem TemplateStatus_frame c code name data (w : World) :
  let w' := (TemplateStatus c code name data w).2 in
  templates w' = templates w
  ∧ templatesData w' = templatesData w
  ∧ heap w' = heap (ExecuteTemplate c name data w).2
  ∧ ∀ c', c' ≠ c → trace c' w' = trace c' w.
Proof.
  destruct (templates w) as [t|] eqn:Ht.
  - rewrite (TemplateStatus_run _ _ _ _ _ t Ht), (ExecuteTemplate_run _ _ _ _ t Ht).
    destruct (template_ExecuteTemplate _ _ _) as [out [msg|]]; simpl;
      split_and!; try done.
    intros c' Hc'. unfold trace; simpl. by rewrite lookup_insert_ne.
  - by rewrite TemplateStatus_absent, ExecuteTemplate_absent.
Qed.

(** X5. Rendering twice with the same context, name and map is the same
    as rendering once: the second call finds the map already completed,
    hands the engine the same entries and leaves the same world. *)
Theorem ExecuteTemplate_twice c name l (w : World) :
  (ExecuteTemplate c name (Some l) ;;; ExecuteTemplate c name (Some l)) w
  = ExecuteTemplate c name (Some l) w.
Proof.
  destruct (templates w) as [t|] eqn:Ht.
  - unfold bind. rewrite (ExecuteTemplate_run _ _ _ _ t Ht).
    rewrite (ExecuteTemplate_run _ _ _ _ t) by done.
    cbn [supplied target]. rewrite !deref_set_heap.
    change (effective_data c (set_heap ?h w) ?d) with (effective_data c w d).
    rewrite effective_idem. unfold set_heap; simpl.
    by rewrite insert_insert_eq.
  - unfold bind. by rewrite !ExecuteTemplate_absent.
Qed.

(** X14. Whatever the caller's map (nil included) and whatever the
    overlay binds, the entries the engine is run on hold the request
    context under [c] and the production flag under [production]: an
    overlay entry under a reserved key is never seen by a template. *)
Theorem reserved_keys_always_injected c name data t (w : World) :
  templates w = Some t →
  ∃ eff,
    (ExecuteTemplate c name data w).1
      = Returned ((template_ExecuteTemplate t name eff).1,
                  errorString <$> (template_ExecuteTemplate t name eff).2)
    ∧ heap (ExecuteTemplate c name data w).2 !! target data w = Some eff
    ∧ eff !! "c" = Some (VContext c)
    ∧ eff !! "production" = Some (VBool (Production w)).
Proof.
  intros Ht. exists (effective_data c w (supplied data w)).
  rewrite (ExecuteTemplate_run _ _ _ _ t Ht); simpl. split_and!.
  - done.
  - by rewrite lookup_insert_eq.
  - apply effective_c.
  - apply effective_production.
Qed.

(** X15. With nil data the call works on a map object of its own: the
    engine is run on the reserved entries laid over the overlay, and
    every map object that existed is left as it was. *)
Theorem ExecuteTemplate_nil_data c name t (w : World) :
  templates w = Some t →
  ∃ eff,
    (ExecuteTemplate c name None w).1
      = Returned ((template_ExecuteTemplate t name eff).1,
                  errorString <$> (template_ExecuteTemplate t name eff).2)
    ∧ dom eff = {[ "c"; "production" ]} ∪ dom (default ∅ (templatesData w))
    ∧ (∀ k, ¬ reserved k → eff !! k = default ∅ (templatesData w) !! k)
    ∧ ∀ l d, heap w !! l = Some d →
             heap (ExecuteTemplate c name None w).2 !! l = Some d.
Proof.
  intros Ht. exists (effective_data c w ∅).
  rewrite (ExecuteTemplate_run _ _ _ _ t Ht); simpl. split_and!.
  - done.
  - rewrite effective_dom, dom_empty_L. by rewrite (left_id_L ∅ (∪)).
  - intros k Hk. by apply effective_overlay.
  - intros l d Hl. rewrite lookup_insert_ne; [done|].
    intros <-. apply elem_of_dom_2 in Hl. by apply is_fresh in Hl.
Qed.

End RenderFrame.

(** ** Registration and what renders see of it *)

Section RegistrationMore.
Context {E : Engine}.

(** The three ways a call of [TemplatesData] can go. *)
Lemma TemplatesData_cases data (w : World) :
  (templates w = None
   ∧ TemplatesData data w = (Panicked (PanicError errNoTemplatesDir), w))
  ∨ (supplied data w = ∅ ∧ TemplatesData data w = (Returned tt, w))
  ∨ (supplied data w ≠ ∅
     ∧ TemplatesData data w
       = (Returned tt,
          set_templatesData
            (Some (supplied data w ∪ default ∅ (templatesData w))) w)).
Proof.
  destruct (templates w) as [t|] eqn:Ht.
  2: { left. split; [done|]. unfold TemplatesData, bind, get. by rewrite Ht. }
  right. destruct data as [l|].
  2: { left. split; [done|]. unfold TemplatesData, bind, get. by rewrite Ht. }
  destruct (decide (deref l w = ∅)) as [Hd|Hd].
  - left. split; [done|]. unfold TemplatesData, bind, get. rewrite Ht, Hd.
    by rewrite decide_True by apply map_size_empty.
  - right. split; [done|]. simpl.
    destruct (heap w !! l) as [m|] eqn:Hl.
    + assert (deref l w = m) as Hm by (unfold deref; by rewrite Hl).
      rewrite Hm in *. by apply (TemplatesData_run l m t).
    + exfalso. apply Hd. unfold deref. by rewrite Hl.
Qed.

(** X6. Registration only adds to the overlay: whatever the call, every
    key the overlay bound is still bound afterwards, and every key the
    registered map does not bind has the value it had. *)
Theorem TemplatesData_keeps_overlay data (w : World) :
  let o := default ∅ (templatesData w) in
  let o' := default ∅ (templatesData (TemplatesData data w).2) in
  dom o ⊆ dom o'
  ∧ ∀ k, supplied data w !! k = None → o' !! k = o !! k.
Proof.
  destruct (TemplatesData_cases data w) as [[_ ->]|[[_ ->]|[_ ->]]]; simpl;
    [done..|].
  split.
  - rewrite dom_union_L. apply union_subseteq_r.
  - intros k Hk. by apply lookup_union_r.
Qed.

(** X7. Registration reads the caller's map and writes only the overlay:
    whatever the call, the map objects (the one registered included), the
    catalog, the response writers and the registered functions are as
    before. *)
Theorem TemplatesData_frame data (w : World) :
  let w' := (TemplatesData data w).2 in
  heap w' = heap w
  ∧ templates w' = templates w
  ∧ writers w' = writers w
  ∧ beforeRun w' = beforeRun w.
Proof.
  by destruct (TemplatesData_cases data w) as [[_ ->]|[[_ ->]|[_ ->]]].
Qed.

(** X8. A registration followed by a render: under a key that is not
    reserved the engine is handed the caller's value if the caller's map
    binds the key, else the registered map's value if that binds it, else
    what the overlay held before. *)
Theorem register_then_render c name lm ld m d t (w : World) k :
  templates w = Some t →
  heap w !! lm = Some m → m ≠ ∅ → heap w !! ld = Some d →
  ¬ reserved k →
  ∃ eff,
    ((TemplatesData (Some lm) ;;; ExecuteTemplate c name (Some ld)) w).1
      = Returned ((template_ExecuteTemplate t name eff).1,
                  errorString <$> (template_ExecuteTemplate t name eff).2)
    ∧ eff !! k
      = match d !! k with
        | Some v => Some v
        | None =>
            match m !! k with
            | Some v => Some v
            | None => default ∅ (templatesData w) !! k
            end
        end.
Proof.
  intros Ht Hm Hne Hd Hk.
  exists (effective_data c
            (set_templatesData (Some (m ∪ default ∅ (templatesData w))) w) d).
  unfold bind. rewrite (TemplatesData_run lm m t) by done.
  rewrite (ExecuteTemplate_run _ _ _ _ t) by done.
  rewrite (supplied_Some ld d) by done. split; [done|].
  rewrite effective_unreserved by done. simpl.
  rewrite !lookup_union.
  by destruct (d !! k), (m !! k), (default ∅ (templatesData w) !! k).
Qed.

(** X17. A map that has been rendered with keeps what the overlay gave
    it: when a key was filled in from the overlay by a first render, a
    later registration under that key is not seen by a second render
    with the same map, which still hands the engine the earlier value. *)
Theorem rendered_map_keeps_overlay_value c name l lm d m t (w : World) k v :
  templates w = Some t →
  heap w !! l = Some d → heap w !! lm = Some m → l ≠ lm → m ≠ ∅ →
  ¬ reserved k → d !! k = None →
  default ∅ (templatesData w) !! k = Some v →
  ∃ eff,
    ((ExecuteTemplate c name (Some l) ;;; TemplatesData (Some lm) ;;;
      ExecuteTemplate c name (Some l)) w).1
      = Returned ((template_ExecuteTemplate t name eff).1,
                  errorString <$> (template_ExecuteTemplate t name eff).2)
    ∧ eff !! k = Some v.
Proof.
  intros Ht Hl Hlm Hne Hm Hk Hd Ho.
  set (w1 := set_heap (<[l := effective_data c w d]> (heap w)) w).
  set (w2 := set_templatesData (Some (m ∪ default ∅ (templatesData w1))) w1).
  exists (effective_data c w2 (effective_data c w d)).
  unfold bind. rewrite (ExecuteTemplate_run _ _ _ _ t Ht).
  rewrite (supplied_Some l d) by done. cbn [target]. fold w1.
  rewrite (TemplatesData_run lm m t w1); [fold w2|done| |done].
  2: { simpl. by rewrite lookup_insert_ne. }
  rewrite (ExecuteTemplate_run _ _ _ _ t) by done.
  rewrite (supplied_Some l (effective_data c w d)).
  2: { simpl. by rewrite lookup_insert_eq. }
  split; [done|].
  rewrite effective_unreserved by done. apply lookup_union_Some_l.
  rewrite effective_unreserved by done. by rewrite lookup_union_r.
Qed.

(** X9. Two registrations of maps with no key in common can be made in
    either order. *)
Theorem TemplatesData_commute l1 l2 m1 m2 t (w : World) :
  templates w = Some t →
  heap w !! l1 = Some m1 → heap w !! l2 = Some m2 →
  m1 ≠ ∅ → m2 ≠ ∅ → m1 ##ₘ m2 →
  (TemplatesData (Some l1) ;;; TemplatesData (Some l2)) w
  = (TemplatesData (Some l2) ;;; TemplatesData (Some l1)) w.
Proof.
  intros Ht H1 H2 Hne1 Hne2 Hdisj. unfold bind.
  rewrite (TemplatesData_run l1 m1 t), (TemplatesData_run l2 m2 t) by done.
  rewrite (TemplatesData_run l2 m2 t), (TemplatesData_run l1 m1 t) by done.
  unfold set_templatesData; simpl. do 3 f_equal.
  rewrite !(assoc_L (∪)). f_equal. symmetry. by apply map_union_comm.
Qed.

(** X12. The loop of [ExecuteTemplate] does not depend on the order in
    which Go visits the overlay: in any order it leaves the caller's
    entries as they are and adds the overlay entries whose keys the map
    lacks. *)
Theorem overlay_loop_result (l : loc) (d o : gmap string Value)
    (es : list (string * Value)) (w : World) :
  heap w !! l = Some d → es ≡ₚ map_to_list o →
  range_in_order es (overlay_step l) w
  = (Returned tt, set_heap (<[l := d ∪ o]> (heap w)) w).
Proof.
  intros Hl Hes. unfold range_in_order, modify.
  rewrite (overlay_entries l es d w Hl).
  rewrite (list_to_map_proper es (map_to_list o)), list_to_map_to_list; [done| |done].
  rewrite Hes. apply NoDup_fst_map_to_list.
Qed.

(** X13. The loop of [TemplatesData] does not depend on the order in
    which Go visits the registered map: in any order it lays the map's
    entries over the overlay. *)
Theorem register_loop_result (m o : gmap string Value)
    (es : list (string * Value)) (w : World) :
  templatesData w = Some o → es ≡ₚ map_to_list m →
  range_in_order es register_step w
  = (Returned tt, set_templatesData (Some (m ∪ o)) w).
Proof.
  intros Ho Hes. unfold range_in_order, modify.
  assert (NoDup es.*1) as Hnd by (rewrite Hes; apply NoDup_fst_map_to_list).
  rewrite (register_entries es Hnd o w Ho).
  by rewrite (list_to_map_proper es (map_to_list m)), list_to_map_to_list.
Qed.

End RegistrationMore.

(** ** Start-up as a whole *)

Section StartupMore.
Context {E : Engine}.

(** X1. When the templates directory is missing at start-up, [init]
    leaves the catalog nil and registers no walk, so that every
    registration and every templated render made afterwards panics with
    [errNoTemplatesDir] and changes nothing. *)
Theorem init_without_directory msg funcs data c code name (w : World) :
  templates w = None →
  (init (Some msg) ;;; TemplatesFuncs funcs) w
    = (Panicked (PanicError errNoTemplatesDir), w)
  ∧ (init (Some msg) ;;; TemplatesData data) w
    = (Panicked (PanicError errNoTemplatesDir), w)
  ∧ (init (Some msg) ;;; TemplateStatus c code name data) w
    = (Panicked (PanicError errNoTemplatesDir), w)
  ∧ (init (Some msg) ;;; ExecuteTemplate c name data) w
    = (Returned ([], Some errNoTemplatesDir), w)
  ∧ beforeRun (init (Some msg) w).2 = beforeRun w.
Proof.
  intros Ht. unfold bind. rewrite init_absent. split_and!.
  - unfold TemplatesFuncs, bind, get. by rewrite Ht.
  - unfold TemplatesData, bind, get. by rewrite Ht.
  - by apply TemplateStatus_absent.
  - by apply ExecuteTemplate_absent.
  - done.
Qed.

(** X11. Start-up with a templates directory: [init], then the
    function it registered. The walk is registered once, the files are
    parsed into a new catalog named after the directory that has the
    built-in functions, and the outcome is that of the walk: return, or
    panic at the first failure. *)
Theorem startup_walk fs (w : World) :
  (init None ;;; runHook fs walkHook) w
  = let t0 := template_Funcs (template_New templatesDir) builtinFuncs in
    let w0 := set_beforeRun (beforeRun w ++ [walkHook]) w in
    match run_steps (steps templatesDir fs) t0 with
    | (t', None) => (Returned tt, set_templates (Some t') w0)
    | (t', Some msg) =>
        (Panicked (PanicString ("response: " +:+ msg)), set_templates (Some t') w0)
    end.
Proof.
  unfold bind at 1. rewrite init_present. simpl.
  unfold walkTemplates, Walk, bind.
  rewrite (walk_templatesWalk _ _
             (template_Funcs (template_New templatesDir) builtinFuncs)) by done.
  by destruct (run_steps _ _) as [t' [msg|]].
Qed.

Lemma run_steps_fails ss t msg :
  FailStep msg ∈ ss → is_Some (run_steps ss t).2.
Proof.
  revert t. induction ss as [|[path|msg'] ss IH]; intros t Hin.
  - by apply elem_of_nil in Hin.
  - apply elem_of_cons in Hin as [?|Hin]; [done|]. simpl.
    destruct (template_ParseFiles t path) as [t' [m|]]; [by eexists|by apply IH].
  - simpl. by eexists.
Qed.

Lemma steps_unreadable fs : ∀ path,
  readable fs = false → ∃ msg, FailStep msg ∈ steps path fs.
Proof.
  induction fs as [n msg|n|n msg|n es IH] using Tree_nested_ind;
    intros path Hr; try done.
  - exists msg. apply list_elem_of_here.
  - exists msg. apply list_elem_of_here.
  - cbn [steps readable] in *.
    induction IH as [|e es He _ IHes]; [done|].
    apply andb_false_iff in Hr as [Hr|Hr].
    + destruct (He (Join path (name_of e)) Hr) as [msg Hmsg]. exists msg.
      apply elem_of_app. by left.
    + destruct (IHes Hr) as [msg Hmsg]. exists msg.
      apply elem_of_app. by right.
Qed.

(** X10. An entry that cannot be examined or a directory that cannot be
    read is never passed over: if the tree has one, the function run
    before serving panics (with that failure or an earlier one). *)
Theorem unreadable_tree_panics fs t (w : World) :
  templates w = Some t → readable fs = false →
  ∃ msg w',
    walkTemplates fs w = (Panicked (PanicString ("response: " +:+ msg)), w').
Proof.
  intros Ht Hr. unfold walkTemplates, Walk, bind.
  rewrite (walk_templatesWalk _ _ t) by done.
  destruct (steps_unreadable fs templatesDir Hr) as [m Hm].
  destruct (run_steps_fails _ t m Hm) as [msg Hmsg].
  destruct (run_steps (steps templatesDir fs) t) as [t' e]; simpl in *.
  subst e. by eexists _, _.
Qed.

Lemma run_steps_parses ps : ∀ t,
  (run_steps (ParseStep <$> ps) t).2 = None ↔ parses_in_turn ps t = true.
Proof.
  induction ps as [|p ps IH]; intros t; simpl; [done|].
  destruct (template_ParseFiles t p) as [t' [msg|]]; simpl; [done|apply IH].
Qed.

Lemma run_steps_catalog ps : ∀ t,
  parses_in_turn ps t = true →
  (run_steps (ParseStep <$> ps) t).1
  = foldl (λ t' p, (template_ParseFiles t' p).1) t ps.
Proof.
  induction ps as [|p ps IH]; intros t; simpl; [done|].
  destruct (template_ParseFiles t p) as [t' [msg|]]; simpl; [done|apply IH].
Qed.

(** X16. The function run before serving returns exactly when the tree
    can be read throughout and each of its files parses into the catalog
    that the files before it have built; the catalog is then the outcome
    of parsing the entries that are not directories, each once, in the
    order of the walk. *)
Theorem walkTemplates_succeeds fs t (w : World) :
  templates w = Some t →
  (readable fs = true → parses_in_turn (files templatesDir fs) t = true →
   walkTemplates fs w
   = (Returned tt,
      set_templates
        (Some (foldl (λ t' p, (template_ParseFiles t' p).1) t
                 (files templatesDir fs))) w))
  ∧ ∀ w', walkTemplates fs w = (Returned tt, w') →
          readable fs = true
          ∧ parses_in_turn (files templatesDir fs) t = true.
Proof.
  intros Ht. unfold walkTemplates, Walk, bind.
  rewrite (walk_templatesWalk _ _ t) by done. split.
  - intros Hr Hp. rewrite (steps_readable _ _ Hr).
    pose proof (proj2 (run_steps_parses _ t) Hp) as Hnone.
    pose proof (run_steps_catalog _ t Hp) as Hcat.
    destruct (run_steps _ t) as [t' e]; simpl in *. by subst.
  - intros w' Hret.
    destruct (readable fs) eqn:Hr.
    + split; [done|]. apply run_steps_parses.
      rewrite <- (steps_readable _ _ Hr).
      by destruct (run_steps (steps templatesDir fs) t) as [t' [msg|]].
    + destruct (steps_unreadable fs templatesDir Hr) as [m Hm].
      destruct (run_steps_fails _ t m Hm) as [msg Hmsg].
      destruct (run_steps (steps templatesDir fs) t) as [t' e]; simpl in *.
      by subst e.
Qed.

End StartupMore.

(** * The helpers at work on the small engine *)

Section Runs.
Local Existing Instance Toy.engine.
Local Abbreviation hello := "hello.tmpl".
Local Abbreviation ctx := Toy.ctx.
Local Abbreviation greeting := Toy.greeting.
Local Abbreviation custom := Toy.custom.

(** The end-to-end example: [hello.tmpl] greets the value of [name]. *)
Example hello_world :
  trace ctx (TemplateStatus ctx 200 hello (Some greeting) Toy.serving).2
  = [HeaderSet "Content-Type" "text/html; charset=utf-8"; WriteHeader 200;
     Write (String.list_byte_of_string "Hello, World!")].
Proof. vm_compute. reflexivity. Qed.

(** Without a templates directory a plain string still renders. *)
Example plain_string_without_catalog :
  trace ctx (String_ ctx "ok" Toy.absent).2
  = [SetDetectedContentType (String.list_byte_of_string "ok"); WriteHeader 200;
     Write (String.list_byte_of_string "ok")].
Proof. vm_compute. reflexivity. Qed.

(** An unknown template: the panic leaves the response writer untouched. *)
Example unknown_template :
  TemplateStatus ctx 200 "nope.tmpl" None Toy.serving
  = (Panicked (PanicError (errorString "html/template: nope.tmpl is undefined")),
     set_heap (<[3%positive := effective_data ctx Toy.serving ∅]> (heap Toy.serving))
       Toy.serving).
Proof. vm_compute. reflexivity. Qed.

(** The walk of a sound tree parses every file, in order... *)
Example walk_good_tree :
  walkTemplates Toy.good_tree Toy.fresh_start
  = (Returned tt, set_templates (Some ["a.tmpl"; "b.tmpl"]) Toy.fresh_start).
Proof. vm_compute. reflexivity. Qed.

(** ... and stops at the first file that does not parse. *)
Example walk_bad_tree :
  walkTemplates Toy.bad_tree Toy.fresh_start
  = (Panicked (PanicString
       "response: template: templates/sub/broken.tmpl: unexpected EOF"),
     set_templates (Some ["a.tmpl"]) Toy.fresh_start).
Proof. vm_compute. reflexivity. Qed.

(** A directory that vanished between [init] and the walk. *)
Example walk_vanished :
  walkTemplates (NoStat "templates" "lstat templates: no such file or directory")
    Toy.fresh_start
  = (Panicked (PanicString
       "response: lstat templates: no such file or directory"),
     Toy.fresh_start).
Proof. vm_compute. reflexivity. Qed.

(** Witness of [absent_catalog_fails]. *)
Lemma absent_catalog_fails_witness :
  templates Toy.absent = None
  ∧ ExecuteTemplate ctx hello (Some greeting) Toy.absent
    = (Returned ([], Some errNoTemplatesDir), Toy.absent)
  ∧ TemplateStatus ctx 404 hello (Some greeting) Toy.absent
    = (Panicked (PanicError errNoTemplatesDir), Toy.absent)
  ∧ Template ctx hello (Some greeting) Toy.absent
    = (Panicked (PanicError errNoTemplatesDir), Toy.absent).
Proof.
  split; [reflexivity|].
  apply (absent_catalog_fails (E:=Toy.engine) ctx 404 hello (Some greeting) Toy.absent).
  reflexivity.
Defined.

(** Witness of [TemplateStatus_atomic]: [hello.tmpl] renders and is
    written out; an unknown name panics and nothing is written. *)
Lemma TemplateStatus_atomic_witness :
  TemplateStatus ctx 201 hello (Some greeting) Toy.serving
  = (Returned tt,
     set_writers
       {[ ctx := [HeaderSet "Content-Type" "text/html; charset=utf-8";
                  WriteHeader 201;
                  Write (String.list_byte_of_string "Hello, World!")] ]}
       (set_heap
          (<[greeting := effective_data ctx Toy.serving
                           {[ "name" := VString "World"; "k" := VString "call" ]}]>
             (heap Toy.serving)) Toy.serving))
  ∧ (TemplateStatus ctx 201 "nope.tmpl" (Some greeting) Toy.serving).1
    = Panicked (PanicError (errorString "html/template: nope.tmpl is undefined"))
  ∧ writers (TemplateStatus ctx 201 "nope.tmpl" (Some greeting) Toy.serving).2
    = writers Toy.serving.
Proof.
  destruct (TemplateStatus_atomic (E:=Toy.engine) ctx 201 hello (Some greeting)
              Toy.serving [hello]
              (String.list_byte_of_string "Hello, World!") None)
    as (_ & _ & Hok & _ & _); [reflexivity..|].
  destruct (TemplateStatus_atomic (E:=Toy.engine) ctx 201 "nope.tmpl"
              (Some greeting) Toy.serving [hello] []
              (Some "html/template: nope.tmpl is undefined"))
    as (_ & Hwriters & Hfail); [reflexivity..|].
  rewrite Hok, Hfail. split; [reflexivity|]. split; [reflexivity|exact Hwriters].
Defined.

(** Witness of [reserved_keys_overwritten]: the caller's ["custom"] under
    [c] is replaced by the request context. *)
Lemma reserved_keys_overwritten_witness :
  ∃ eff,
    deref custom (ExecuteTemplate ctx hello (Some custom) Toy.serving).2 = eff
    ∧ deref custom (Template ctx hello (Some custom) Toy.serving).2 = eff
    ∧ eff !! "c" = Some (VContext ctx)
    ∧ eff !! "c" ≠ Some (VString "custom").
Proof.
  destruct (reserved_keys_overwritten (E:=Toy.engine) ctx 200 hello custom
              {[ "c" := VString "custom"; "production" := VString "custom" ]}
              [hello] Toy.serving "c" (VString "custom"))
    as (eff & _ & Hexec & _ & Htemplate & Hc & Hlost).
  - reflexivity.
  - reflexivity.
  - left; reflexivity.
  - reflexivity.
  - exists eff. repeat split; [exact Hexec|exact Htemplate|exact Hc|].
    apply Hlost. discriminate.
Defined.

(** Witness of [supplied_key_after_merge]: the call and the overlay both
    bind [production]; the template sees the flag. *)
Lemma supplied_key_after_merge_witness :
  deref custom (ExecuteTemplate ctx hello (Some custom) Toy.serving).2 !! "production"
  = Some (VBool true).
Proof.
  apply (supplied_key_after_merge (E:=Toy.engine) ctx hello custom
           {[ "c" := VString "custom"; "production" := VString "custom" ]}
           [hello] Toy.serving "production" (VString "custom"));
    reflexivity.
Defined.

(** Witness of [ExecuteTemplate_mutates_in_place]. *)
Lemma ExecuteTemplate_mutates_in_place_witness :
  let d : gmap string Value :=
    {[ "name" := VString "World"; "k" := VString "call" ]} in
  let w' := (ExecuteTemplate ctx hello (Some greeting) Toy.serving).2 in
  (∃ d',
     heap w' !! greeting = Some d'
     ∧ (ExecuteTemplate ctx hello (Some greeting) Toy.serving).1
         = Returned ((Toy.exec [hello] hello d').1,
                     errorString <$> (Toy.exec [hello] hello d').2)
     ∧ d' !! "c" = Some (VContext ctx)
     ∧ d' !! "production" = Some (VBool true)
     ∧ (∀ k, ¬ reserved k → d !! k = None →
             d' !! k = default ∅ (templatesData Toy.serving) !! k)
     ∧ (∀ k, ¬ reserved k → is_Some (d !! k) → d' !! k = d !! k)
     ∧ dom d' = dom d ∪ {[ "c"; "production" ]}
                  ∪ dom (default ∅ (templatesData Toy.serving)))
  ∧ dom (heap w') = dom (heap Toy.serving)
  ∧ (∀ l', l' ≠ greeting → heap w' !! l' = heap Toy.serving !! l')
  ∧ heap (TemplateStatus ctx 200 hello (Some greeting) Toy.serving).2 = heap w'
  ∧ heap (Template ctx hello (Some greeting) Toy.serving).2 = heap w'.
Proof.
  apply (ExecuteTemplate_mutates_in_place (E:=Toy.engine) ctx 200 hello greeting
           {[ "name" := VString "World"; "k" := VString "call" ]}
           [hello] Toy.serving);
    reflexivity.
Defined.

(** C9, as worded, fails: with no catalog [ExecuteTemplate] returns at
    its guard, and after the call the caller's map holds what it held,
    with nothing under [c] or [production]. *)
Lemma ExecuteTemplate_without_catalog_leaves_map :
  ExecuteTemplate ctx hello (Some greeting) Toy.absent
  = (Returned ([], Some errNoTemplatesDir), Toy.absent)
  ∧ heap (ExecuteTemplate ctx hello (Some greeting) Toy.absent).2 !! greeting
    = Some {[ "name" := VString "World" ]}
  ∧ deref greeting (ExecuteTemplate ctx hello (Some greeting) Toy.absent).2 !! "c"
    = None
  ∧ deref greeting (ExecuteTemplate ctx hello (Some greeting) Toy.absent).2
      !! "production" = None.
Proof. repeat split; reflexivity. Qed.

(** Witness of [TemplatesData_guards]. *)
Lemma TemplatesData_guards_witness :
  (templates Toy.absent = None
   ∧ TemplatesData (Some greeting) Toy.absent
     = (Panicked (PanicError errNoTemplatesDir), Toy.absent))
  ∧ (is_Some (templates Toy.fresh_start)
     ∧ supplied (Some 3%positive) Toy.fresh_start = ∅
     ∧ TemplatesData (Some 3%positive) Toy.fresh_start
       = (Returned tt, Toy.fresh_start)).
Proof.
  split.
  - split; [reflexivity|].
    apply (proj1 (TemplatesData_guards (E:=Toy.engine) (Some greeting) Toy.absent)).
    reflexivity.
  - split; [exists []; reflexivity|]. split; [reflexivity|].
    apply (proj2 (TemplatesData_guards (E:=Toy.engine) (Some 3%positive)
                    Toy.fresh_start)).
    + exists []; reflexivity.
    + reflexivity.
Defined.

(** C7, as worded, fails: with no catalog, registering the nil map is not
    a no-op but a panic. *)
Lemma TemplatesData_nil_without_catalog :
  supplied None Toy.absent = ∅
  ∧ TemplatesData None Toy.absent
    = (Panicked (PanicError errNoTemplatesDir), Toy.absent)
  ∧ (TemplatesData None Toy.absent).1 ≠ Returned tt.
Proof. split; [reflexivity|]. split; [reflexivity|discriminate]. Qed.

(** Witness of [TemplatesData_idempotent_overwrite]. *)
Lemma TemplatesData_idempotent_overwrite_witness :
  (TemplatesData (Some 1%positive) ;;; TemplatesData (Some 1%positive)) Toy.fresh_start
  = TemplatesData (Some 1%positive) Toy.fresh_start
  ∧ ∃ w1 w2 o1 o2,
      TemplatesData (Some 1%positive) Toy.fresh_start = (Returned tt, w1)
      ∧ templatesData w1 = Some o1
      ∧ (TemplatesData (Some 1%positive) ;;; TemplatesData (Some 2%positive))
          Toy.fresh_start = (Returned tt, w2)
      ∧ templatesData w2 = Some o2
      ∧ (∀ k v, ({[ "x" := VInt 2; "y" := VInt 3 ]} : gmap string Value) !! k = Some v
                → o2 !! k = Some v)
      ∧ (∀ k, ({[ "x" := VInt 2; "y" := VInt 3 ]} : gmap string Value) !! k = None
              → o2 !! k = o1 !! k).
Proof.
  destruct (TemplatesData_idempotent_overwrite (E:=Toy.engine) 1%positive
              {[ "x" := VInt 1 ]} [] Toy.fresh_start) as [Honce Htwo].
  - reflexivity.
  - reflexivity.
  - apply map_non_empty_singleton.
  - split; [exact Honce|].
    apply (Htwo 2%positive {[ "x" := VInt 2; "y" := VInt 3 ]}).
    + reflexivity.
    + apply insert_non_empty.
Defined.

(** Witness of [walkTemplates_parses_or_panics]. *)
Lemma walkTemplates_parses_or_panics_witness :
  templates Toy.fresh_start = Some []
  ∧ walkTemplates Toy.bad_tree Toy.fresh_start
    = (Panicked (PanicString
         "response: template: templates/sub/broken.tmpl: unexpected EOF"),
       set_templates (Some ["a.tmpl"]) Toy.fresh_start).
Proof.
  split; [reflexivity|].
  rewrite (walkTemplates_parses_or_panics (E:=Toy.engine) Toy.bad_tree []
             Toy.fresh_start eq_refl).
  reflexivity.
Defined.

End Runs.

(** * The further properties at work on the small engine *)

Section MoreRuns.
Local Existing Instance Toy.engine.
Local Abbreviation hello := "hello.tmpl".
Local Abbreviation ctx := Toy.ctx.
Local Abbreviation greeting := Toy.greeting.
Local Abbreviation custom := Toy.custom.

(** Witness of [reserved_keys_always_injected]: the overlay binds
    [production], the template still sees the flag. *)
Lemma reserved_keys_always_injected_witness :
  ∃ eff,
    (ExecuteTemplate ctx hello None Toy.serving).1
      = Returned ((Toy.exec [hello] hello eff).1,
                  errorString <$> (Toy.exec [hello] hello eff).2)
    ∧ heap (ExecuteTemplate ctx hello None Toy.serving).2
        !! target None Toy.serving = Some eff
    ∧ eff !! "c" = Some (VContext ctx)
    ∧ eff !! "production" = Some (VBool true).
Proof.
  apply (reserved_keys_always_injected (E:=Toy.engine) ctx hello None [hello]
           Toy.serving).
  reflexivity.
Defined.

(** Witness of [ExecuteTemplate_nil_data]. *)
Lemma ExecuteTemplate_nil_data_witness :
  ∃ eff,
    (ExecuteTemplate ctx hello None Toy.serving).1
      = Returned ((Toy.exec [hello] hello eff).1,
                  errorString <$> (Toy.exec [hello] hello eff).2)
    ∧ dom eff = {[ "c"; "production" ]}
                  ∪ dom (default ∅ (templatesData Toy.serving))
    ∧ (∀ k, ¬ reserved k → eff !! k = default ∅ (templatesData Toy.serving) !! k)
    ∧ ∀ l d, heap Toy.serving !! l = Some d →
             heap (ExecuteTemplate ctx hello None Toy.serving).2 !! l = Some d.
Proof.
  apply (ExecuteTemplate_nil_data (E:=Toy.engine) ctx hello [hello] Toy.serving).
  reflexivity.
Defined.

(** Witness of [register_then_render]: the caller binds [k], the
    registered map binds [k] too; the caller's value is the one seen. *)
Lemma register_then_render_witness :
  ∃ eff,
    ((TemplatesData (Some custom) ;;; ExecuteTemplate ctx hello (Some greeting))
       Toy.serving).1
      = Returned ((Toy.exec [hello] hello eff).1,
                  errorString <$> (Toy.exec [hello] hello eff).2)
    ∧ eff !! "k" = Some (VString "call").
Proof.
  destruct (register_then_render (E:=Toy.engine) ctx hello custom greeting
              {[ "c" := VString "custom"; "production" := VString "custom" ]}
              {[ "name" := VString "World"; "k" := VString "call" ]}
              [hello] Toy.serving "k") as (eff & Hrun & Hk).
  - reflexivity.
  - reflexivity.
  - apply insert_non_empty.
  - reflexivity.
  - intros [Hk|Hk]; discriminate Hk.
  - exists eff. split; [exact Hrun|]. rewrite Hk. reflexivity.
Defined.

(** Witness of [TemplatesData_commute]. *)
Lemma TemplatesData_commute_witness :
  (TemplatesData (Some greeting) ;;; TemplatesData (Some custom)) Toy.serving
  = (TemplatesData (Some custom) ;;; TemplatesData (Some greeting)) Toy.serving.
Proof.
  apply (TemplatesData_commute (E:=Toy.engine) greeting custom
           {[ "name" := VString "World"; "k" := VString "call" ]}
           {[ "c" := VString "custom"; "production" := VString "custom" ]}
           [hello] Toy.serving).
  - reflexivity.
  - reflexivity.
  - reflexivity.
  - apply insert_non_empty.
  - apply insert_non_empty.
  - apply map_disjoint_spec. intros k x y Hx Hy.
    destruct (decide (k = "name")) as [->|?]; [by vm_compute in Hy|].
    destruct (decide (k = "k")) as [->|?]; [by vm_compute in Hy|].
    by rewrite lookup_insert_ne, lookup_singleton_ne in Hx.
Defined.

(** Witness of [overlay_loop_result]: the overlay's entries visited last
    to first. *)
Lemma overlay_loop_result_witness :
  range_in_order
    (reverse (map_to_list ({[ "k" := VString "overlay"; "site" := VString "volatile" ]}
                             : gmap string Value)))
    (overlay_step greeting) Toy.serving
  = (Returned tt,
     set_heap
       (<[greeting := {[ "name" := VString "World"; "k" := VString "call" ]}
                        ∪ {[ "k" := VString "overlay"; "site" := VString "volatile" ]}]>
          (heap Toy.serving)) Toy.serving).
Proof.
  apply (overlay_loop_result (E:=Toy.engine)).
  - reflexivity.
  - apply reverse_Permutation.
Defined.

(** Witness of [register_loop_result]. *)
Lemma register_loop_result_witness :
  range_in_order
    (reverse (map_to_list ({[ "x" := VInt 2; "y" := VInt 3 ]} : gmap string Value)))
    register_step Toy.serving
  = (Returned tt,
     set_templatesData
       (Some ({[ "x" := VInt 2; "y" := VInt 3 ]}
                ∪ {[ "k" := VString "overlay"; "site" := VString "volatile";
                     "production" := VString "overlay" ]})) Toy.serving).
Proof.
  apply (register_loop_result (E:=Toy.engine)).
  - reflexivity.
  - apply reverse_Permutation.
Defined.

(** Witness of [init_without_directory]. *)
Lemma init_without_directory_witness :
  (init (Some "stat templates: no such file or directory") ;;;
     TemplatesFuncs builtinFuncs) Toy.absent
    = (Panicked (PanicError errNoTemplatesDir), Toy.absent)
  ∧ (init (Some "stat templates: no such file or directory") ;;;
       TemplatesData (Some greeting)) Toy.absent
    = (Panicked (PanicError errNoTemplatesDir), Toy.absent)
  ∧ (init (Some "stat templates: no such file or directory") ;;;
       TemplateStatus ctx 200 hello (Some greeting)) Toy.absent
    = (Panicked (PanicError errNoTemplatesDir), Toy.absent)
  ∧ (init (Some "stat templates: no such file or directory") ;;;
       ExecuteTemplate ctx hello (Some greeting)) Toy.absent
    = (Returned ([], Some errNoTemplatesDir), Toy.absent)
  ∧ beforeRun (init (Some "stat templates: no such file or directory")
                 Toy.absent).2 = beforeRun Toy.absent.
Proof.
  apply (init_without_directory (E:=Toy.engine)). reflexivity.
Defined.

(** Witness of [unreadable_tree_panics]: [a.tmpl] parses, then the
    directory beside it cannot be read. *)
Lemma unreadable_tree_panics_witness :
  ∃ msg w',
    walkTemplates
      (Node "templates"
         (inr [Leaf "a.tmpl";
               Node "sub" (inl "open templates/sub: permission denied")]))
      Toy.fresh_start
    = (Panicked (PanicString ("response: " +:+ msg)), w').
Proof.
  apply (unreadable_tree_panics (E:=Toy.engine) _ [] Toy.fresh_start);
    reflexivity.
Defined.

(** Witness of [walkTemplates_succeeds]. *)
Lemma walkTemplates_succeeds_witness :
  walkTemplates Toy.good_tree Toy.fresh_start
  = (Returned tt,
     set_templates
       (Some (foldl (λ t' p, (Toy.parse t' p).1) []
                (files templatesDir Toy.good_tree))) Toy.fresh_start).
Proof.
  apply (walkTemplates_succeeds (E:=Toy.engine) Toy.good_tree [] Toy.fresh_start);
    reflexivity.
Defined.

(** Witness of [rendered_map_keeps_overlay_value]: the overlay gives
    [site] to the first render; the registration of a new [site] comes
    too late for the map. *)
Lemma rendered_map_keeps_overlay_value_witness :
  ∃ eff,
    ((ExecuteTemplate ctx hello (Some greeting) ;;;
      TemplatesData (Some 3%positive) ;;;
      ExecuteTemplate ctx hello (Some greeting))
       (set_heap (<[3%positive := {[ "site" := VString "new" ]}]>
                    (heap Toy.serving)) Toy.serving)).1
      = Returned ((Toy.exec [hello] hello eff).1,
                  errorString <$> (Toy.exec [hello] hello eff).2)
    ∧ eff !! "site" = Some (VString "volatile").
Proof.
  apply (rendered_map_keeps_overlay_value (E:=Toy.engine) ctx hello greeting
           3%positive
           {[ "name" := VString "World"; "k" := VString "call" ]}
           {[ "site" := VString "new" ]} [hello]
           (set_heap (<[3%positive := {[ "site" := VString "new" ]}]>
                        (heap Toy.serving)) Toy.serving)
           "site" (VString "volatile")).
  - reflexivity.
  - reflexivity.
  - reflexivity.
  - discriminate.
  - apply map_non_empty_singleton.
  - intros [Hk|Hk]; discriminate Hk.
  - reflexivity.
  - reflexivity.
Defined.

End MoreRuns.
